(** * Edelbaum (a, i) guidance law of [poliastro.twobody.thrust]

    A shallow embedding of [edelbaum_ai] and of the functions nested in it,
    with the properties of its closed-form quantities (initial yaw angle,
    velocity increment, transfer time) and of the acceleration function it
    returns.

    Numbers.  The program computes on numpy [float64] values.  They are
    modelled as the real numbers extended with the three IEEE-754 special
    values, so that a division by zero gives what numpy gives (an infinity
    or a NaN and no exception).  Rounding and overflow are not modelled: an
    operation on finite values is the exact real operation.  The sign of a
    zero is not modelled either: a zero is the positive zero.

    Where an expression loses its accuracy by cancellation, a [float64]
    result can be far from the exact value: so does the velocity increment
    of [_delta_V] when [a_0 > a_f] and the inclination change is small.
    The module [Any] has the same program over an arithmetic left open,
    for what holds whatever the rounding is. *)

From Stdlib Require Import Reals Lra.

Open Scope R_scope.

(** ** numpy [float64] values *)

Inductive npfloat : Type :=
| Fin (x : R)
| PInf
| NInf
| NaN.

(** The infinity that carries the sign of [x]; NaN when [x] is zero
    (the IEEE results of [x * inf] and of [x / 0]). *)
Definition inf_of_sign (x : R) : npfloat :=
  if Rlt_dec 0 x then PInf else if Rlt_dec x 0 then NInf else NaN.

Definition np_neg (a : npfloat) : npfloat :=
  match a with
  | Fin x => Fin (- x)
  | PInf => NInf
  | NInf => PInf
  | NaN => NaN
  end.

Definition np_add (a b : npfloat) : npfloat :=
  match a, b with
  | NaN, _ | _, NaN => NaN
  | Fin x, Fin y => Fin (x + y)
  | PInf, NInf | NInf, PInf => NaN
  | PInf, _ | _, PInf => PInf
  | NInf, _ | _, NInf => NInf
  end.

Definition np_sub (a b : npfloat) : npfloat := np_add a (np_neg b).

Definition np_mul (a b : npfloat) : npfloat :=
  match a, b with
  | NaN, _ | _, NaN => NaN
  | Fin x, Fin y => Fin (x * y)
  | Fin x, PInf | PInf, Fin x => inf_of_sign x
  | Fin x, NInf | NInf, Fin x => inf_of_sign (- x)
  | PInf, PInf | NInf, NInf => PInf
  | PInf, NInf | NInf, PInf => NInf
  end.

Definition np_div (a b : npfloat) : npfloat :=
  match a, b with
  | NaN, _ | _, NaN => NaN
  | Fin x, Fin y => if Req_dec_T y 0 then inf_of_sign x else Fin (x / y)
  | Fin _, (PInf | NInf) => Fin 0
  | PInf, Fin y => if Rlt_dec y 0 then NInf else PInf
  | NInf, Fin y => if Rlt_dec y 0 then PInf else NInf
  | (PInf | NInf), (PInf | NInf) => NaN
  end.

Definition np_sqrt (a : npfloat) : npfloat :=
  match a with
  | Fin x => if Rlt_dec x 0 then NaN else Fin (sqrt x)
  | PInf => PInf
  | NInf | NaN => NaN
  end.

Definition np_abs (a : npfloat) : npfloat :=
  match a with
  | Fin x => Fin (Rabs x)
  | PInf | NInf => PInf
  | NaN => NaN
  end.

(** [np.sign] on a real: -1, 0 or 1. *)
Definition Rsign (x : R) : R :=
  if Rlt_dec 0 x then 1 else if Rlt_dec x 0 then -1 else 0.

Definition np_sign (a : npfloat) : npfloat :=
  match a with
  | Fin x => Fin (Rsign x)
  | PInf => Fin 1
  | NInf => Fin (-1)
  | NaN => NaN
  end.

Definition np_sin (a : npfloat) : npfloat :=
  match a with
  | Fin x => Fin (sin x)
  | _ => NaN
  end.

Definition np_cos (a : npfloat) : npfloat :=
  match a with
  | Fin x => Fin (cos x)
  | _ => NaN
  end.

(** [np.tan]: the quotient of sine and cosine, an infinity at a pole. *)
Definition np_tan (a : npfloat) : npfloat :=
  match a with
  | Fin x => np_div (Fin (sin x)) (Fin (cos x))
  | _ => NaN
  end.

(** The two-argument arctangent on reals, with values in (-PI, PI] and
    [atan2 0 0 = 0]. *)
Definition atan2 (y x : R) : R :=
  if Rlt_dec 0 x then atan (y / x)
  else if Rlt_dec x 0 then
         if Rlt_dec y 0 then atan (y / x) - PI else atan (y / x) + PI
  else if Rlt_dec 0 y then PI / 2
  else if Rlt_dec y 0 then - (PI / 2)
  else 0.

(** [np.arctan2 y x], with the C99 values at the infinities. *)
Definition np_arctan2 (a b : npfloat) : npfloat :=
  match a, b with
  | NaN, _ | _, NaN => NaN
  | Fin y, Fin x => Fin (atan2 y x)
  | Fin y, PInf => Fin 0
  | Fin y, NInf => if Rlt_dec y 0 then Fin (- PI) else Fin PI
  | PInf, Fin _ => Fin (PI / 2)
  | NInf, Fin _ => Fin (- (PI / 2))
  | PInf, PInf => Fin (PI / 4)
  | NInf, PInf => Fin (- (PI / 4))
  | PInf, NInf => Fin (3 * PI / 4)
  | NInf, NInf => Fin (- (3 * PI / 4))
  end.

Definition np_pi : npfloat := Fin PI.

(** The comparison [==] of two floats: a NaN is equal to nothing. *)
Definition np_eqb (a b : npfloat) : bool :=
  match a, b with
  | Fin x, Fin y => if Req_dec_T x y then true else false
  | PInf, PInf | NInf, NInf => true
  | _, _ => false
  end.

(** ** Arrays of three floats *)

Record vec3 : Type := Vec3 { c0 : npfloat; c1 : npfloat; c2 : npfloat }.

Definition vscale (s : npfloat) (u : vec3) : vec3 :=
  Vec3 (np_mul s (c0 u)) (np_mul s (c1 u)) (np_mul s (c2 u)).

Definition vdiv (u : vec3) (s : npfloat) : vec3 :=
  Vec3 (np_div (c0 u) s) (np_div (c1 u) s) (np_div (c2 u) s).

Definition vadd (u w : vec3) : vec3 :=
  Vec3 (np_add (c0 u) (c0 w)) (np_add (c1 u) (c1 w)) (np_add (c2 u) (c2 w)).

Definition dot (u w : vec3) : npfloat :=
  np_add (np_add (np_mul (c0 u) (c0 w)) (np_mul (c1 u) (c1 w)))
         (np_mul (c2 u) (c2 w)).

(** [np.cross] *)
Definition cross (u w : vec3) : vec3 :=
  Vec3 (np_sub (np_mul (c1 u) (c2 w)) (np_mul (c2 u) (c1 w)))
       (np_sub (np_mul (c2 u) (c0 w)) (np_mul (c0 u) (c2 w)))
       (np_sub (np_mul (c0 u) (c1 w)) (np_mul (c1 u) (c0 w))).

(** ** The helpers of [poliastro.util] *)

(** Modelled from the spec: [poliastro.util.norm], which is not among the
    sources; the spec gives it as the vector norm [norm(vector) -> scalar],
    the Euclidean norm of the array. *)
Definition norm (u : vec3) : npfloat := np_sqrt (dot u u).

(** Modelled from the spec: [poliastro.util.circular_velocity], which is
    not among the sources; the spec gives it as
    [circular_velocity(k, a) = sqrt(k / a)]. *)
Definition circular_velocity (k a : npfloat) : npfloat :=
  np_sqrt (np_div k a).

(** ** The state handed to the acceleration function

    [state_from_vector] adapts the function to the propagator; the function
    itself reads the position [ss.r.value] and the velocity [ss.v.value]. *)

Record state : Type := State { ss_r : vec3; ss_v : vec3 }.

(** ** [edelbaum_ai] and its nested functions *)

Definition _beta_0 (V_0 V_f inc_0 inc_f : npfloat) : npfloat :=
  let delta_i_f := np_abs (np_sub inc_f inc_0) in
  np_arctan2
    (np_sin (np_mul (np_div np_pi (Fin 2)) delta_i_f))
    (np_sub (np_div V_0 V_f)
            (np_cos (np_mul (np_div np_pi (Fin 2)) delta_i_f))).

Definition _compute_parameters (k a_0 a_f inc_0 inc_f : npfloat)
  : npfloat * npfloat * npfloat :=
  let delta_inc := np_abs (np_sub inc_f inc_0) in
  let V_0 := circular_velocity k a_0 in
  let V_f := circular_velocity k a_f in
  let beta_0_ := _beta_0 V_0 V_f inc_0 inc_f in
  (V_0, beta_0_, delta_inc).

Definition _beta (t V_0 f beta_0 : npfloat) : npfloat :=
  np_arctan2 (np_mul V_0 (np_sin beta_0))
             (np_sub (np_mul V_0 (np_cos beta_0)) (np_mul f t)).

Definition _delta_V (V_0 beta_0 inc_0 inc_f : npfloat) : npfloat :=
  let delta_i_f := np_abs (np_sub inc_f inc_0) in
  np_sub (np_mul V_0 (np_cos beta_0))
         (np_div (np_mul V_0 (np_sin beta_0))
                 (np_tan (np_add (np_mul (np_div np_pi (Fin 2)) delta_i_f)
                                 beta_0))).

Definition _extra_quantities (k a_0 a_f inc_0 inc_f f : npfloat)
  : npfloat * npfloat :=
  let '(V_0, beta_0_, _) := _compute_parameters k a_0 a_f inc_0 inc_f in
  let delta_V_ := _delta_V V_0 beta_0_ inc_0 inc_f in
  let t_f_ := np_div delta_V_ f in
  (delta_V_, t_f_).

(** The closure [a_d]; its first five arguments are the values it captures
    from the enclosing call. *)
Definition a_d (V_0 beta_0_ f inc_0 inc_f : npfloat)
           (t0 : npfloat) (ss : state) : vec3 :=
  let r := ss_r ss in
  let v := ss_v ss in
  let beta_ :=
    np_mul (_beta t0 V_0 f beta_0_)
           (np_sign (np_mul (c0 r) (np_sub inc_f inc_0))) in
  let t_ := vdiv v (norm v) in
  let w_ := vdiv (cross r v) (norm (cross r v)) in
  let accel_v :=
    vscale f (vadd (vscale (np_cos beta_) t_) (vscale (np_sin beta_) w_)) in
  accel_v.

Definition edelbaum_ai (k a_0 a_f inc_0 inc_f f : npfloat)
  : (npfloat -> state -> vec3) * npfloat * npfloat :=
  let '(V_0, beta_0_, _) := _compute_parameters k a_0 a_f inc_0 inc_f in
  let '(delta_V, t_f) := _extra_quantities k a_0 a_f inc_0 inc_f f in
  (a_d V_0 beta_0_ f inc_0 inc_f, delta_V, t_f).

(** The three values returned by [edelbaum_ai]. *)
Definition ret_a_d (x : (npfloat -> state -> vec3) * npfloat * npfloat)
  : npfloat -> state -> vec3 := fst (fst x).
Definition ret_delta_V (x : (npfloat -> state -> vec3) * npfloat * npfloat)
  : npfloat := snd (fst x).
Definition ret_t_f (x : (npfloat -> state -> vec3) * npfloat * npfloat)
  : npfloat := snd x.

(** ** Results and their components *)

(** The array that a degenerate state yields. *)
Definition nan_vec : vec3 := Vec3 NaN NaN NaN.

(** The component of an acceleration [a] along the orbit normal of the
    state [ss], the unit vector [w_] of [a_d]. *)
Definition out_of_plane (a : vec3) (ss : state) : npfloat :=
  dot a (vdiv (cross (ss_r ss) (ss_v ss)) (norm (cross (ss_r ss) (ss_v ss)))).

(** ** The formulas of the specification, on reals *)

Module Spec.

(** Inclination change, [|inc_f - inc_0|]. *)
Definition delta_i (inc_0 inc_f : R) : R := Rabs (inc_f - inc_0).

(** Circular velocity, [sqrt(k / a)]. *)
Definition V (k a : R) : R := sqrt (k / a).

(** Initial yaw angle,
    [atan2(sin(pi/2 di), V_0/V_f - cos(pi/2 di))]. *)
Definition beta_0 (k a_0 a_f inc_0 inc_f : R) : R :=
  atan2 (sin (PI / 2 * delta_i inc_0 inc_f))
        (V k a_0 / V k a_f - cos (PI / 2 * delta_i inc_0 inc_f)).

(** Yaw angle at the elapsed time [t],
    [atan2(V_0 sin(beta_0), V_0 cos(beta_0) - f t)]. *)
Definition beta (V_0 beta_0 f t : R) : R :=
  atan2 (V_0 * sin beta_0) (V_0 * cos beta_0 - f * t).


(** Real vectors, for the position and the velocity of a state. *)
Record R3 : Type := mkR3 { e0 : R; e1 : R; e2 : R }.

Definition dot3 (u w : R3) : R := e0 u * e0 w + e1 u * e1 w + e2 u * e2 w.

Definition cross3 (u w : R3) : R3 :=
  mkR3 (e1 u * e2 w - e2 u * e1 w)
       (e2 u * e0 w - e0 u * e2 w)
       (e0 u * e1 w - e1 u * e0 w).

Definition norm3 (u : R3) : R := sqrt (dot3 u u).

Definition zero3 : R3 := mkR3 0 0 0.

(** Tangential unit vector [v / |v|] and orbit-normal unit vector
    [(r x v) / |r x v|]. *)
Definition unit3 (u : R3) : R3 :=
  mkR3 (e0 u / norm3 u) (e1 u / norm3 u) (e2 u / norm3 u).

Definition tangent (v : R3) : R3 := unit3 v.
Definition normal (r v : R3) : R3 := unit3 (cross3 r v).

(** Yaw angle after the sign correction,
    [beta(t) * sign(r_x * (inc_f - inc_0))]. *)
Definition yaw (V_0 beta_0 f inc_0 inc_f t : R) (r : R3) : R :=
  beta V_0 beta_0 f t * Rsign (e0 r * (inc_f - inc_0)).

(** Acceleration [f * (cos(b) t^ + sin(b) w^)] for the yaw angle [b]. *)
Definition accel (f b : R) (r v : R3) : R3 :=
  mkR3 (f * (cos b * e0 (tangent v) + sin b * e0 (normal r v)))
       (f * (cos b * e1 (tangent v) + sin b * e1 (normal r v)))
       (f * (cos b * e2 (tangent v) + sin b * e2 (normal r v))).

(** A vector multiplied by a real. *)
Definition scale3 (l : R) (u : R3) : R3 := mkR3 (l * e0 u) (l * e1 u) (l * e2 u).

End Spec.

(** A real vector as an array of finite floats, and a state of them. *)
Definition of_R3 (u : Spec.R3) : vec3 :=
  Vec3 (Fin (Spec.e0 u)) (Fin (Spec.e1 u)) (Fin (Spec.e2 u)).

Definition fin_state (r v : Spec.R3) : state := State (of_R3 r) (of_R3 v).

(** ** The program over any arithmetic

    The same functions with the arithmetic left open: [num] stands for
    [float64] and the operations for those of Python and numpy as they are,
    rounding included.  What is proved of these definitions does not rest
    on how an operation rounds. *)

Module Any.

Record arith : Type := Arith {
  num : Type;
  add : num -> num -> num;
  sub : num -> num -> num;
  mul : num -> num -> num;
  div : num -> num -> num;
  absf : num -> num;
  sqrtf : num -> num;
  sinf : num -> num;
  cosf : num -> num;
  tanf : num -> num;
  arctan2 : num -> num -> num;
  signf : num -> num;
  pi : num;
  two : num
}.

Section Program.

Variable A : arith.

Record vec : Type := Vec { x0 : num A; x1 : num A; x2 : num A }.

Record state : Type := State { r_of : vec; v_of : vec }.

Definition vscale (s : num A) (u : vec) : vec :=
  Vec (mul A s (x0 u)) (mul A s (x1 u)) (mul A s (x2 u)).

Definition vdiv (u : vec) (s : num A) : vec :=
  Vec (div A (x0 u) s) (div A (x1 u) s) (div A (x2 u) s).

Definition vadd (u w : vec) : vec :=
  Vec (add A (x0 u) (x0 w)) (add A (x1 u) (x1 w)) (add A (x2 u) (x2 w)).

Definition dot (u w : vec) : num A :=
  add A (add A (mul A (x0 u) (x0 w)) (mul A (x1 u) (x1 w)))
        (mul A (x2 u) (x2 w)).

Definition cross (u w : vec) : vec :=
  Vec (sub A (mul A (x1 u) (x2 w)) (mul A (x2 u) (x1 w)))
      (sub A (mul A (x2 u) (x0 w)) (mul A (x0 u) (x2 w)))
      (sub A (mul A (x0 u) (x1 w)) (mul A (x1 u) (x0 w))).

(** Modelled from the spec: [poliastro.util.norm], the Euclidean norm. *)
Definition norm (u : vec) : num A := sqrtf A (dot u u).

(** Modelled from the spec: [poliastro.util.circular_velocity],
    [sqrt(k / a)]. *)
Definition circular_velocity (k a : num A) : num A := sqrtf A (div A k a).

Definition _beta_0 (V_0 V_f inc_0 inc_f : num A) : num A :=
  let delta_i_f := absf A (sub A inc_f inc_0) in
  arctan2 A
    (sinf A (mul A (div A (pi A) (two A)) delta_i_f))
    (sub A (div A V_0 V_f)
           (cosf A (mul A (div A (pi A) (two A)) delta_i_f))).

Definition _compute_parameters (k a_0 a_f inc_0 inc_f : num A)
  : num A * num A * num A :=
  let delta_inc := absf A (sub A inc_f inc_0) in
  let V_0 := circular_velocity k a_0 in
  let V_f := circular_velocity k a_f in
  let beta_0_ := _beta_0 V_0 V_f inc_0 inc_f in
  (V_0, beta_0_, delta_inc).

Definition _beta (t V_0 f beta_0 : num A) : num A :=
  arctan2 A (mul A V_0 (sinf A beta_0))
            (sub A (mul A V_0 (cosf A beta_0)) (mul A f t)).

Definition _delta_V (V_0 beta_0 inc_0 inc_f : num A) : num A :=
  let delta_i_f := absf A (sub A inc_f inc_0) in
  sub A (mul A V_0 (cosf A beta_0))
        (div A (mul A V_0 (sinf A beta_0))
               (tanf A (add A (mul A (div A (pi A) (two A)) delta_i_f)
                              beta_0))).

Definition _extra_quantities (k a_0 a_f inc_0 inc_f f : num A)
  : num A * num A :=
  let '(V_0, beta_0_, _) := _compute_parameters k a_0 a_f inc_0 inc_f in
  let delta_V_ := _delta_V V_0 beta_0_ inc_0 inc_f in
  let t_f_ := div A delta_V_ f in
  (delta_V_, t_f_).

Definition a_d (V_0 beta_0_ f inc_0 inc_f : num A)
           (t0 : num A) (ss : state) : vec :=
  let r := r_of ss in
  let v := v_of ss in
  let beta_ :=
    mul A (_beta t0 V_0 f beta_0_)
          (signf A (mul A (x0 r) (sub A inc_f inc_0))) in
  let t_ := vdiv v (norm v) in
  let w_ := vdiv (cross r v) (norm (cross r v)) in
  let accel_v :=
    vscale f (vadd (vscale (cosf A beta_) t_) (vscale (sinf A beta_) w_)) in
  accel_v.

Definition edelbaum_ai (k a_0 a_f inc_0 inc_f f : num A)
  : (num A -> state -> vec) * num A * num A :=
  let '(V_0, beta_0_, _) := _compute_parameters k a_0 a_f inc_0 inc_f in
  let '(delta_V, t_f) := _extra_quantities k a_0 a_f inc_0 inc_f f in
  (a_d V_0 beta_0_ f inc_0 inc_f, delta_V, t_f).

Definition ret_a_d (x : (num A -> state -> vec) * num A * num A)
  : num A -> state -> vec := fst (fst x).
Definition ret_delta_V (x : (num A -> state -> vec) * num A * num A)
  : num A := snd (fst x).
Definition ret_t_f (x : (num A -> state -> vec) * num A * num A)
  : num A := snd x.

End Program.

End Any.

(** The arithmetic of the first part of this file: exact on finite values,
    with the IEEE special values. *)
Definition exact_arith : Any.arith :=
  Any.Arith npfloat np_add np_sub np_mul np_div np_abs np_sqrt np_sin np_cos
            np_tan np_arctan2 np_sign np_pi (Fin 2).

Definition to_vec3 (u : Any.vec exact_arith) : vec3 :=
  Vec3 (Any.x0 exact_arith u) (Any.x1 exact_arith u) (Any.x2 exact_arith u).

Definition of_state (ss : state) : Any.state exact_arith :=
  Any.State exact_arith
    (Any.Vec exact_arith (c0 (ss_r ss)) (c1 (ss_r ss)) (c2 (ss_r ss)))
    (Any.Vec exact_arith (c0 (ss_v ss)) (c1 (ss_v ss)) (c2 (ss_v ss))).

(** * Properties *)

(** ** Arithmetic of finite floats *)

Lemma np_div_fin (x y : R) : y <> 0 -> np_div (Fin x) (Fin y) = Fin (x / y).
Proof.
  intros Hy. simpl. destruct (Req_dec_T y 0) as [E | _]; [contradiction | reflexivity].
Qed.

Lemma np_div_zero_zero (x y : R) : x = 0 -> y = 0 -> np_div (Fin x) (Fin y) = NaN.
Proof.
  intros -> ->. simpl. destruct (Req_dec_T 0 0) as [_ | N]; [| contradiction N; reflexivity].
  unfold inf_of_sign. destruct (Rlt_dec 0 0) as [H | _]; [lra |]. reflexivity.
Qed.

Lemma np_sqrt_fin (x : R) : 0 <= x -> np_sqrt (Fin x) = Fin (sqrt x).
Proof.
  intros Hx. simpl. destruct (Rlt_dec x 0) as [H | _]; [lra | reflexivity].
Qed.

Lemma np_mul_nan_r (a : npfloat) : np_mul a NaN = NaN.
Proof. destruct a; reflexivity. Qed.

Lemma np_add_nan_r (a : npfloat) : np_add a NaN = NaN.
Proof. destruct a; reflexivity. Qed.

Lemma Rsign_cases (x : R) :
  (x < 0 /\ Rsign x = -1) \/ (x = 0 /\ Rsign x = 0) \/ (0 < x /\ Rsign x = 1).
Proof.
  unfold Rsign. destruct (Rlt_dec 0 x) as [P | P]; [right; right; split; [lra | reflexivity] |].
  destruct (Rlt_dec x 0) as [N | N]; [left; split; [lra | reflexivity] |].
  right; left; split; [lra | reflexivity].
Qed.


Lemma circular_velocity_fin (k a : R) :
  0 < k -> 0 < a ->
  circular_velocity (Fin k) (Fin a) = Fin (Spec.V k a) /\ 0 < Spec.V k a.
Proof.
  intros Hk Ha. unfold circular_velocity, Spec.V.
  assert (Hq : 0 < k / a) by (apply Rdiv_lt_0_compat; assumption).
  rewrite np_div_fin by lra. rewrite np_sqrt_fin by lra.
  split; [reflexivity | apply sqrt_lt_R0; exact Hq].
Qed.

(** ** The two-argument arctangent *)

Section Atan2.

Variables y x : R.

Lemma hypot_pos : x <> 0 \/ y <> 0 -> 0 < sqrt (x * x + y * y).
Proof.
  intros H. apply sqrt_lt_R0.
  destruct H as [H | H]; nra.
Qed.

Lemma sqrt_one_plus_sqr : x <> 0 ->
  sqrt (x * x + y * y) = Rabs x * sqrt (1 + (y / x)²).
Proof.
  intros Hx.
  replace (x * x + y * y) with (x² * (1 + (y / x)²))
    by (unfold Rsqr; field; exact Hx).
  rewrite sqrt_mult_alt by apply Rle_0_sqr.
  rewrite sqrt_Rsqr_abs. reflexivity.
Qed.

Lemma sqrt_one_plus_sqr_pos : 0 < sqrt (1 + (y / x)²).
Proof.
  apply sqrt_lt_R0. pose proof (Rle_0_sqr (y / x)). lra.
Qed.

Lemma atan2_cos_sin : x <> 0 \/ y <> 0 ->
  cos (atan2 y x) = x / sqrt (x * x + y * y) /\
  sin (atan2 y x) = y / sqrt (x * x + y * y).
Proof.
  intros H. pose proof (hypot_pos H) as Hrho.
  pose proof sqrt_one_plus_sqr_pos as Hs.
  unfold atan2.
  destruct (Rlt_dec 0 x) as [Hx | Hx].
  - rewrite cos_atan, sin_atan, sqrt_one_plus_sqr by lra.
    rewrite Rabs_right by lra. split; field; lra.
  - destruct (Rlt_dec x 0) as [Hx' | Hx'].
    + assert (E : sqrt (x * x + y * y) = - x * sqrt (1 + (y / x)²)).
      { rewrite sqrt_one_plus_sqr by lra. rewrite Rabs_left by lra. reflexivity. }
      destruct (Rlt_dec y 0) as [Hy | Hy].
      * rewrite cos_minus, sin_minus, cos_PI, sin_PI, cos_atan, sin_atan, E.
        split; field; lra.
      * rewrite cos_plus, sin_plus, cos_PI, sin_PI, cos_atan, sin_atan, E.
        split; field; lra.
    + assert (x = 0) by lra. subst x.
      assert (Hy0 : y <> 0) by (destruct H; [lra | assumption]).
      replace (0 * 0 + y * y) with (y²) by (unfold Rsqr; ring).
      rewrite sqrt_Rsqr_abs.
      destruct (Rlt_dec 0 y) as [Hy | Hy].
      * rewrite cos_PI2, sin_PI2, Rabs_right by lra. split; field; lra.
      * destruct (Rlt_dec y 0) as [Hy' | Hy']; [| lra].
        rewrite cos_neg, sin_neg, cos_PI2, sin_PI2, Rabs_left by lra.
        split; field; lra.
Qed.

Lemma sin_atan2_pos : 0 < y -> 0 < sin (atan2 y x).
Proof.
  intros Hy. assert (H : x <> 0 \/ y <> 0) by (right; lra).
  destruct (atan2_cos_sin H) as [_ ->].
  apply Rdiv_lt_0_compat; [exact Hy | exact (hypot_pos H)].
Qed.

Lemma sin_atan2_neg : y < 0 -> sin (atan2 y x) < 0.
Proof.
  intros Hy. assert (H : x <> 0 \/ y <> 0) by (right; lra).
  destruct (atan2_cos_sin H) as [_ ->].
  pose proof (hypot_pos H) as Hr.
  unfold Rdiv. pose proof (Rinv_0_lt_compat _ Hr). nra.
Qed.

End Atan2.

Lemma atan2_0_nonneg (x : R) : 0 <= x -> atan2 0 x = 0.
Proof.
  intros Hx. unfold atan2.
  destruct (Rlt_dec 0 x) as [H | H].
  - unfold Rdiv. rewrite Rmult_0_l. apply atan_0.
  - destruct (Rlt_dec x 0) as [H' | H']; [lra |].
    destruct (Rlt_dec 0 0) as [H0 | H0]; [lra | reflexivity].
Qed.

Lemma atan2_0_neg (x : R) : x < 0 -> atan2 0 x = PI.
Proof.
  intros Hx. unfold atan2.
  destruct (Rlt_dec 0 x) as [H | H]; [lra |].
  destruct (Rlt_dec x 0) as [H' | H']; [| lra].
  destruct (Rlt_dec 0 0) as [H0 | H0]; [lra |].
  unfold Rdiv. rewrite Rmult_0_l, atan_0. lra.
Qed.

(** ** Vectors of finite floats *)

Lemma cross_of_R3 (r v : Spec.R3) :
  cross (of_R3 r) (of_R3 v) = of_R3 (Spec.cross3 r v).
Proof. reflexivity. Qed.

Lemma dot_of_R3 (u w : Spec.R3) : dot (of_R3 u) (of_R3 w) = Fin (Spec.dot3 u w).
Proof. reflexivity. Qed.

Lemma dot3_self_nonneg (u : Spec.R3) : 0 <= Spec.dot3 u u.
Proof. unfold Spec.dot3. nra. Qed.

Lemma dot3_self_zero (u : Spec.R3) : Spec.dot3 u u = 0 -> u = Spec.zero3.
Proof.
  destruct u as [a b c]. unfold Spec.dot3, Spec.zero3. simpl. intros H.
  assert (a = 0) by nra. assert (b = 0) by nra. assert (c = 0) by nra.
  subst. reflexivity.
Qed.

Lemma norm_of_R3 (u : Spec.R3) : norm (of_R3 u) = Fin (Spec.norm3 u).
Proof.
  unfold norm. rewrite dot_of_R3. apply np_sqrt_fin, dot3_self_nonneg.
Qed.

Lemma norm3_pos (u : Spec.R3) : u <> Spec.zero3 -> 0 < Spec.norm3 u.
Proof.
  intros Hu. unfold Spec.norm3. apply sqrt_lt_R0.
  destruct (dot3_self_nonneg u) as [H | H]; [exact H |].
  exfalso. apply Hu, dot3_self_zero. symmetry. exact H.
Qed.

Lemma norm3_zero : Spec.norm3 Spec.zero3 = 0.
Proof.
  unfold Spec.norm3, Spec.dot3. simpl.
  replace (0 * 0 + 0 * 0 + 0 * 0) with 0 by ring. apply sqrt_0.
Qed.

Lemma norm3_sqr (u : Spec.R3) : Spec.norm3 u * Spec.norm3 u = Spec.dot3 u u.
Proof. unfold Spec.norm3. apply sqrt_sqrt, dot3_self_nonneg. Qed.

Lemma vdiv_of_R3 (u : Spec.R3) (n : R) : n <> 0 ->
  vdiv (of_R3 u) (Fin n) =
  of_R3 (Spec.mkR3 (Spec.e0 u / n) (Spec.e1 u / n) (Spec.e2 u / n)).
Proof.
  intros Hn. unfold vdiv, of_R3. simpl c0. simpl c1. simpl c2.
  rewrite !np_div_fin by exact Hn. reflexivity.
Qed.

Lemma unit_of_R3 (u : Spec.R3) : u <> Spec.zero3 ->
  vdiv (of_R3 u) (norm (of_R3 u)) = of_R3 (Spec.unit3 u).
Proof.
  intros Hu. rewrite norm_of_R3.
  rewrite vdiv_of_R3 by (apply Rgt_not_eq, norm3_pos, Hu). reflexivity.
Qed.

(** The unit vectors of a non-degenerate state are orthonormal. *)
Lemma unit3_norm (u : Spec.R3) : u <> Spec.zero3 ->
  Spec.dot3 (Spec.unit3 u) (Spec.unit3 u) = 1.
Proof.
  intros Hu. pose proof (norm3_pos u Hu) as Hn. pose proof (norm3_sqr u) as Hs.
  unfold Spec.unit3, Spec.dot3 in *. simpl.
  set (n := Spec.norm3 u) in *.
  replace (Spec.e0 u / n * (Spec.e0 u / n) + Spec.e1 u / n * (Spec.e1 u / n) +
           Spec.e2 u / n * (Spec.e2 u / n))
    with ((Spec.e0 u * Spec.e0 u + Spec.e1 u * Spec.e1 u + Spec.e2 u * Spec.e2 u)
          / (n * n)) by (field; lra).
  rewrite <- Hs. field. lra.
Qed.

Lemma tangent_normal_orth (r v : Spec.R3) :
  Spec.dot3 (Spec.tangent v) (Spec.normal r v) = 0.
Proof.
  unfold Spec.tangent, Spec.normal, Spec.unit3, Spec.dot3, Spec.cross3. simpl.
  unfold Rdiv. ring.
Qed.

(** ** The acceleration function on a non-degenerate state *)

Lemma _beta_fin (t V_0 f beta_0 : R) :
  _beta (Fin t) (Fin V_0) (Fin f) (Fin beta_0) = Fin (Spec.beta V_0 beta_0 f t).
Proof. reflexivity. Qed.

Lemma a_d_fin (V_0 beta_0 f inc_0 inc_f t : R) (r v : Spec.R3) :
  v <> Spec.zero3 -> Spec.cross3 r v <> Spec.zero3 ->
  a_d (Fin V_0) (Fin beta_0) (Fin f) (Fin inc_0) (Fin inc_f) (Fin t)
      (fin_state r v)
  = of_R3 (Spec.accel f (Spec.yaw V_0 beta_0 f inc_0 inc_f t r) r v).
Proof.
  intros Hv Hc. unfold a_d, fin_state. cbn [ss_r ss_v].
  rewrite cross_of_R3, !unit_of_R3 by assumption.
  reflexivity.
Qed.

Lemma accel_norm (f b : R) (r v : Spec.R3) :
  0 <= f -> v <> Spec.zero3 -> Spec.cross3 r v <> Spec.zero3 ->
  Spec.norm3 (Spec.accel f b r v) = f.
Proof.
  intros Hf Hv Hc.
  pose proof (unit3_norm v Hv) as Ht.
  pose proof (unit3_norm _ Hc) as Hw.
  pose proof (tangent_normal_orth r v) as Ho.
  pose proof (sin2_cos2 b) as Hsc. unfold Rsqr in Hsc.
  unfold Spec.norm3. apply sqrt_lem_1; [apply dot3_self_nonneg | exact Hf |].
  unfold Spec.normal, Spec.tangent in *.
  set (tv := Spec.unit3 v) in *. set (wv := Spec.unit3 (Spec.cross3 r v)) in *.
  unfold Spec.accel, Spec.dot3 in *. cbn [Spec.e0 Spec.e1 Spec.e2].
  unfold Spec.normal, Spec.tangent. fold tv wv.
  set (t0 := Spec.e0 tv) in *. set (t1 := Spec.e1 tv) in *. set (t2 := Spec.e2 tv) in *.
  set (w0 := Spec.e0 wv) in *. set (w1 := Spec.e1 wv) in *. set (w2 := Spec.e2 wv) in *.
  set (c := cos b) in *. set (s := sin b) in *.
  replace (f * (c * t0 + s * w0) * (f * (c * t0 + s * w0)) +
           f * (c * t1 + s * w1) * (f * (c * t1 + s * w1)) +
           f * (c * t2 + s * w2) * (f * (c * t2 + s * w2)))
    with (f * f * (c * c * (t0 * t0 + t1 * t1 + t2 * t2)
                   + 2 * c * s * (t0 * w0 + t1 * w1 + t2 * w2)
                   + s * s * (w0 * w0 + w1 * w1 + w2 * w2))) by ring.
  rewrite Ht, Hw, Ho.
  replace (c * c * 1 + 2 * c * s * 0 + s * s * 1) with (s * s + c * c) by ring.
  rewrite Hsc. ring.
Qed.

Lemma accel_normal (f b : R) (r v : Spec.R3) :
  Spec.cross3 r v <> Spec.zero3 ->
  Spec.dot3 (Spec.accel f b r v) (Spec.normal r v) = f * sin b.
Proof.
  intros Hc.
  pose proof (unit3_norm _ Hc) as Hw.
  pose proof (tangent_normal_orth r v) as Ho.
  unfold Spec.normal, Spec.tangent in *.
  set (tv := Spec.unit3 v) in *. set (wv := Spec.unit3 (Spec.cross3 r v)) in *.
  unfold Spec.accel, Spec.dot3 in *. cbn [Spec.e0 Spec.e1 Spec.e2].
  unfold Spec.normal, Spec.tangent. fold tv wv.
  set (t0 := Spec.e0 tv) in *. set (t1 := Spec.e1 tv) in *. set (t2 := Spec.e2 tv) in *.
  set (w0 := Spec.e0 wv) in *. set (w1 := Spec.e1 wv) in *. set (w2 := Spec.e2 wv) in *.
  replace (f * (cos b * t0 + sin b * w0) * w0 + f * (cos b * t1 + sin b * w1) * w1 +
           f * (cos b * t2 + sin b * w2) * w2)
    with (f * (cos b * (t0 * w0 + t1 * w1 + t2 * w2)
               + sin b * (w0 * w0 + w1 * w1 + w2 * w2))) by ring.
  rewrite Hw, Ho. ring.
Qed.

Lemma out_of_plane_fin (a r v : Spec.R3) :
  Spec.cross3 r v <> Spec.zero3 ->
  out_of_plane (of_R3 a) (fin_state r v) = Fin (Spec.dot3 a (Spec.normal r v)).
Proof.
  intros Hc. unfold out_of_plane, fin_state. cbn [ss_r ss_v].
  rewrite cross_of_R3, unit_of_R3 by assumption. reflexivity.
Qed.

Lemma cross3_nonzero_v (r v : Spec.R3) :
  Spec.cross3 r v <> Spec.zero3 -> v <> Spec.zero3.
Proof.
  intros Hc Hv. apply Hc. subst v. unfold Spec.cross3, Spec.zero3. simpl.
  f_equal; ring.
Qed.

(** The out-of-plane component of the acceleration at a non-degenerate
    state is [f * sin] of the corrected yaw angle. *)
Lemma a_d_out_of_plane (V_0 beta_0 f inc_0 inc_f t : R) (r v : Spec.R3) :
  Spec.cross3 r v <> Spec.zero3 ->
  out_of_plane
    (a_d (Fin V_0) (Fin beta_0) (Fin f) (Fin inc_0) (Fin inc_f) (Fin t)
         (fin_state r v))
    (fin_state r v)
  = Fin (f * sin (Spec.yaw V_0 beta_0 f inc_0 inc_f t r)).
Proof.
  intros Hc. pose proof (cross3_nonzero_v r v Hc) as Hv.
  rewrite a_d_fin, out_of_plane_fin, accel_normal by assumption. reflexivity.
Qed.

(** ** The derived parameters on valid inputs *)

Lemma half_pi_fin : np_div np_pi (Fin 2) = Fin (PI / 2).
Proof. unfold np_pi. apply np_div_fin. lra. Qed.

Lemma _beta_0_fin (V_0 V_f inc_0 inc_f : R) :
  V_f <> 0 ->
  _beta_0 (Fin V_0) (Fin V_f) (Fin inc_0) (Fin inc_f)
  = Fin (atan2 (sin (PI / 2 * Spec.delta_i inc_0 inc_f))
               (V_0 / V_f - cos (PI / 2 * Spec.delta_i inc_0 inc_f))).
Proof.
  intros HV. unfold _beta_0. rewrite half_pi_fin, np_div_fin by exact HV.
  reflexivity.
Qed.

Lemma _compute_parameters_fin (k a_0 a_f inc_0 inc_f : R) :
  0 < k -> 0 < a_0 -> 0 < a_f ->
  _compute_parameters (Fin k) (Fin a_0) (Fin a_f) (Fin inc_0) (Fin inc_f)
  = (Fin (Spec.V k a_0), Fin (Spec.beta_0 k a_0 a_f inc_0 inc_f),
     Fin (Spec.delta_i inc_0 inc_f)).
Proof.
  intros Hk H0 Hf. unfold _compute_parameters.
  destruct (circular_velocity_fin k a_0 Hk H0) as [-> _].
  destruct (circular_velocity_fin k a_f Hk Hf) as [-> Hpos].
  rewrite _beta_0_fin by lra. reflexivity.
Qed.

Lemma np_tan_fin (x : R) : cos x <> 0 -> np_tan (Fin x) = Fin (tan x).
Proof. intros Hc. unfold np_tan, tan. apply np_div_fin, Hc. Qed.

Lemma _delta_V_unfold (V_0 beta_0 inc_0 inc_f : R) :
  _delta_V (Fin V_0) (Fin beta_0) (Fin inc_0) (Fin inc_f)
  = np_sub (Fin (V_0 * cos beta_0))
           (np_div (Fin (V_0 * sin beta_0))
                   (np_tan (Fin (PI / 2 * Spec.delta_i inc_0 inc_f + beta_0)))).
Proof. unfold _delta_V. rewrite half_pi_fin. reflexivity. Qed.

Lemma edelbaum_ai_fin (k a_0 a_f inc_0 inc_f : R) (f : npfloat) :
  0 < k -> 0 < a_0 -> 0 < a_f ->
  let V_0 := Fin (Spec.V k a_0) in
  let beta_0_ := Fin (Spec.beta_0 k a_0 a_f inc_0 inc_f) in
  let delta_V := _delta_V V_0 beta_0_ (Fin inc_0) (Fin inc_f) in
  edelbaum_ai (Fin k) (Fin a_0) (Fin a_f) (Fin inc_0) (Fin inc_f) f
  = (a_d V_0 beta_0_ f (Fin inc_0) (Fin inc_f), delta_V, np_div delta_V f).
Proof.
  intros Hk H0 Hf. unfold edelbaum_ai, _extra_quantities.
  rewrite _compute_parameters_fin by assumption. reflexivity.
Qed.

(** ** Concrete inputs *)

Lemma V_1_1 : Spec.V 1 1 = 1.
Proof. unfold Spec.V. replace (1 / 1) with 1 by field. apply sqrt_1. Qed.

Lemma V_1_4 : Spec.V 1 4 = 1 / 2.
Proof.
  unfold Spec.V. replace (1 / 4) with ((1 / 2) * (1 / 2)) by field.
  apply sqrt_square. lra.
Qed.


Lemma delta_i_same (inc : R) : Spec.delta_i inc inc = 0.
Proof. unfold Spec.delta_i. replace (inc - inc) with 0 by ring. apply Rabs_R0. Qed.

(** ** The claims *)

(** The program on the exact arithmetic is the program of the first part
    of this file. *)
Lemma exact_arith_agrees (k a_0 a_f inc_0 inc_f f : npfloat) :
  Any._compute_parameters exact_arith k a_0 a_f inc_0 inc_f
  = _compute_parameters k a_0 a_f inc_0 inc_f /\
  Any.ret_delta_V exact_arith (Any.edelbaum_ai exact_arith k a_0 a_f inc_0 inc_f f)
  = ret_delta_V (edelbaum_ai k a_0 a_f inc_0 inc_f f) /\
  Any.ret_t_f exact_arith (Any.edelbaum_ai exact_arith k a_0 a_f inc_0 inc_f f)
  = ret_t_f (edelbaum_ai k a_0 a_f inc_0 inc_f f) /\
  forall (t0 : npfloat) (ss : state),
    to_vec3 (Any.ret_a_d exact_arith
               (Any.edelbaum_ai exact_arith k a_0 a_f inc_0 inc_f f)
               t0 (of_state ss))
    = ret_a_d (edelbaum_ai k a_0 a_f inc_0 inc_f f) t0 ss.
Proof.
  split; [reflexivity |].
  unfold Any.edelbaum_ai, Any._extra_quantities, edelbaum_ai, _extra_quantities.
  change (Any._compute_parameters exact_arith k a_0 a_f inc_0 inc_f)
    with (_compute_parameters k a_0 a_f inc_0 inc_f).
  destruct (_compute_parameters k a_0 a_f inc_0 inc_f) as [[V_0 beta_0_] d].
  repeat split.
Qed.

(** C1.  Whatever the arithmetic, the velocity increment returned by
    [edelbaum_ai] is the expression
    [V_0 cos(beta_0) - V_0 sin(beta_0) / tan(pi/2 di + beta_0)] evaluated in
    that arithmetic, at [di = |inc_f - inc_0|], [V_0 = sqrt(k / a_0)] and
    the initial yaw angle
    [beta_0 = arctan2(sin(pi/2 di), V_0/V_f - cos(pi/2 di))]. *)
Theorem delta_V_formula (A : Any.arith) (k a_0 a_f inc_0 inc_f f : Any.num A) :
  let di := Any.absf A (Any.sub A inc_f inc_0) in
  let half_pi_di := Any.mul A (Any.div A (Any.pi A) (Any.two A)) di in
  let V_0 := Any.sqrtf A (Any.div A k a_0) in
  let V_f := Any.sqrtf A (Any.div A k a_f) in
  let beta_0 :=
    Any.arctan2 A (Any.sinf A half_pi_di)
                  (Any.sub A (Any.div A V_0 V_f) (Any.cosf A half_pi_di)) in
  Any.ret_delta_V A (Any.edelbaum_ai A k a_0 a_f inc_0 inc_f f)
  = Any.sub A (Any.mul A V_0 (Any.cosf A beta_0))
              (Any.div A (Any.mul A V_0 (Any.sinf A beta_0))
                         (Any.tanf A (Any.add A half_pi_di beta_0))).
Proof.
  intros di half_pi_di V_0 V_f beta_0.
  unfold Any.edelbaum_ai, Any._extra_quantities, Any._compute_parameters.
  unfold Any.ret_delta_V. cbn [fst snd].
  unfold Any._delta_V, Any._beta_0, Any.circular_velocity.
  reflexivity.
Qed.

(** C2.  On a valid input the initial yaw angle derived by [edelbaum_ai],
    the one its acceleration function captures, is
    [atan2(sin(pi/2 di), V_0/V_f - cos(pi/2 di))]; the two-argument
    arctangent fixes the quadrant: where the second argument is negative
    the angle is the arctangent of the quotient moved by [pi]. *)
Theorem beta_0_atan2 (k a_0 a_f inc_0 inc_f f : R) :
  0 < k -> 0 < a_0 -> 0 < a_f ->
  let di := Rabs (inc_f - inc_0) in
  let V_0 := sqrt (k / a_0) in
  let V_f := sqrt (k / a_f) in
  let y := sin (PI / 2 * di) in
  let x := V_0 / V_f - cos (PI / 2 * di) in
  snd (fst (_compute_parameters (Fin k) (Fin a_0) (Fin a_f)
                                (Fin inc_0) (Fin inc_f)))
  = Fin (atan2 y x) /\
  ret_a_d
    (edelbaum_ai (Fin k) (Fin a_0) (Fin a_f) (Fin inc_0) (Fin inc_f) (Fin f))
  = a_d (Fin V_0) (Fin (atan2 y x)) (Fin f) (Fin inc_0) (Fin inc_f) /\
  (x < 0 -> 0 <= y -> atan2 y x = atan (y / x) + PI) /\
  (x < 0 -> y < 0 -> atan2 y x = atan (y / x) - PI).
Proof.
  intros Hk H0 Hf di V_0 V_f y x.
  rewrite _compute_parameters_fin, edelbaum_ai_fin by assumption.
  repeat split.
  - intros Hx Hy. unfold atan2.
    destruct (Rlt_dec 0 x); [lra |]. destruct (Rlt_dec x 0); [| lra].
    destruct (Rlt_dec y 0); [lra | reflexivity].
  - intros Hx Hy. unfold atan2.
    destruct (Rlt_dec 0 x); [lra |]. destruct (Rlt_dec x 0); [| lra].
    destruct (Rlt_dec y 0); [reflexivity | lra].
Qed.

(** At [k = 1], [a_0 = 4], [a_f = 1] and no inclination change the yaw
    angle is [pi]; the arctangent of the quotient is 0. *)
Lemma beta_0_atan2_witness :
  snd (fst (_compute_parameters (Fin 1) (Fin 4) (Fin 1) (Fin 0) (Fin 0)))
  = Fin PI.
Proof.
  destruct (beta_0_atan2 1 4 1 0 0 1) as [E _]; try lra.
  rewrite E. f_equal.
  fold (Spec.delta_i 0 0) (Spec.V 1 4) (Spec.V 1 1).
  rewrite delta_i_same, V_1_4, V_1_1, Rmult_0_r, sin_0, cos_0.
  apply atan2_0_neg. lra.
Defined.

(** C3.  At every call of the acceleration function the yaw angle, before
    its sign is corrected, is
    [atan2(V_0 sin(beta_0), V_0 cos(beta_0) - f t)] for the elapsed time
    [t] of that call. *)
Theorem beta_t_atan2 (t V_0 beta_0 f : R) (inc_0 inc_f : npfloat) (ss : state) :
  let b := atan2 (V_0 * sin beta_0) (V_0 * cos beta_0 - f * t) in
  _beta (Fin t) (Fin V_0) (Fin f) (Fin beta_0) = Fin b /\
  a_d (Fin V_0) (Fin beta_0) (Fin f) inc_0 inc_f (Fin t) ss
  = let beta_ :=
      np_mul (Fin b) (np_sign (np_mul (c0 (ss_r ss)) (np_sub inc_f inc_0))) in
    vscale (Fin f)
      (vadd (vscale (np_cos beta_) (vdiv (ss_v ss) (norm (ss_v ss))))
            (vscale (np_sin beta_)
                    (vdiv (cross (ss_r ss) (ss_v ss))
                          (norm (cross (ss_r ss) (ss_v ss)))))).
Proof.
  intros b. split.
  - apply _beta_fin.
  - unfold a_d. rewrite _beta_fin. reflexivity.
Qed.

(** C4.  For a valid construction input and a thrust [f > 0], at every
    elapsed time and every state with [v <> 0] and [r x v <> 0], the
    acceleration returned by the constructed function has norm [f]. *)
Theorem a_d_norm (k a_0 a_f inc_0 inc_f f t : R) (r v : Spec.R3) :
  0 < k -> 0 < a_0 -> 0 < a_f -> 0 < f ->
  v <> Spec.zero3 -> Spec.cross3 r v <> Spec.zero3 ->
  norm (ret_a_d
          (edelbaum_ai (Fin k) (Fin a_0) (Fin a_f) (Fin inc_0) (Fin inc_f)
                       (Fin f))
          (Fin t) (fin_state r v))
  = Fin f.
Proof.
  intros Hk H0 Hf Hpos Hv Hc.
  rewrite edelbaum_ai_fin by assumption. unfold ret_a_d. cbn [fst].
  rewrite a_d_fin, norm_of_R3 by assumption.
  f_equal. apply accel_norm; [lra | assumption | assumption].
Qed.

Lemma a_d_norm_witness :
  norm (ret_a_d
          (edelbaum_ai (Fin 1) (Fin 1) (Fin 4) (Fin 0) (Fin 1) (Fin 2))
          (Fin 3) (fin_state (Spec.mkR3 1 0 0) (Spec.mkR3 0 1 0)))
  = Fin 2.
Proof.
  apply (a_d_norm 1 1 4 0 1 2 3 (Spec.mkR3 1 0 0) (Spec.mkR3 0 1 0)); try lra.
  - intros H. injection H as H. lra.
  - unfold Spec.cross3, Spec.zero3. simpl. intros H. injection H as _ _ H. lra.
Defined.

(** C5.  The transfer time returned by [edelbaum_ai] is the returned
    velocity increment divided by the thrust [f]. *)
Theorem t_f_delta_V_over_f (k a_0 a_f inc_0 inc_f f : npfloat) :
  let res := edelbaum_ai k a_0 a_f inc_0 inc_f f in
  ret_t_f res = np_div (ret_delta_V res) f.
Proof.
  unfold edelbaum_ai, _extra_quantities.
  destruct (_compute_parameters k a_0 a_f inc_0 inc_f) as [[V_0 beta_0_] d].
  reflexivity.
Qed.

(** ** The sign factor *)

Lemma sign_factor_fin (rx inc_0 inc_f : R) :
  np_sign (np_mul (Fin rx) (np_sub (Fin inc_f) (Fin inc_0)))
  = Fin (Rsign (rx * (inc_f - inc_0))).
Proof. reflexivity. Qed.

Lemma Rsign_0 : Rsign 0 = 0.
Proof. destruct (Rsign_cases 0) as [[H _] | [[_ E] | [H _]]]; [lra | exact E | lra]. Qed.

Lemma Rsign_pos (x : R) : 0 < x -> Rsign x = 1.
Proof. intros Hx. destruct (Rsign_cases x) as [[H _] | [[H _] | [_ E]]]; [lra | lra | exact E]. Qed.

Lemma Rsign_neg (x : R) : x < 0 -> Rsign x = -1.
Proof. intros Hx. destruct (Rsign_cases x) as [[_ E] | [[H _] | [H _]]]; [exact E | lra | lra]. Qed.

Lemma Rsign_nonzero (x : R) : x <> 0 -> Rsign x = 1 \/ Rsign x = -1.
Proof.
  intros Hx. destruct (Rsign_cases x) as [[_ E] | [[H _] | [_ E]]];
    [right; exact E | contradiction | left; exact E].
Qed.

(** C10.  When [r_x = 0] or [inc_f = inc_0] the sign factor is zero, the
    corrected yaw angle is 0, and on a non-degenerate state the
    acceleration is [f * (v / |v|)], with no component along the orbit
    normal; the sign factor takes the three values -1, 0 and 1. *)
Theorem zero_sign_tangential (V_0 beta_0 f inc_0 inc_f t : R) (r v : Spec.R3) :
  v <> Spec.zero3 -> Spec.cross3 r v <> Spec.zero3 ->
  Spec.e0 r = 0 \/ inc_f = inc_0 ->
  let sgn := np_sign (np_mul (c0 (of_R3 r)) (np_sub (Fin inc_f) (Fin inc_0))) in
  let acc := a_d (Fin V_0) (Fin beta_0) (Fin f) (Fin inc_0) (Fin inc_f)
                 (Fin t) (fin_state r v) in
  sgn = Fin 0 /\
  np_mul (_beta (Fin t) (Fin V_0) (Fin f) (Fin beta_0)) sgn = Fin 0 /\
  acc = of_R3 (Spec.mkR3 (f * (Spec.e0 v / Spec.norm3 v))
                         (f * (Spec.e1 v / Spec.norm3 v))
                         (f * (Spec.e2 v / Spec.norm3 v))) /\
  out_of_plane acc (fin_state r v) = Fin 0 /\
  (forall x : R, np_sign (Fin x) = Fin (-1) \/ np_sign (Fin x) = Fin 0 \/
                 np_sign (Fin x) = Fin 1) /\
  np_sign (Fin (-2)) = Fin (-1) /\ np_sign (Fin 0) = Fin 0 /\
  np_sign (Fin 2) = Fin 1.
Proof.
  intros Hv Hc Hz sgn acc.
  assert (Es : Rsign (Spec.e0 r * (inc_f - inc_0)) = 0).
  { replace (Spec.e0 r * (inc_f - inc_0)) with 0; [apply Rsign_0 |].
    destruct Hz as [-> | ->]; ring. }
  assert (Ey : Spec.yaw V_0 beta_0 f inc_0 inc_f t r = 0).
  { unfold Spec.yaw. rewrite Es. ring. }
  assert (Esgn : sgn = Fin 0).
  { unfold sgn. cbn [c0 of_R3]. rewrite sign_factor_fin, Es. reflexivity. }
  split; [exact Esgn |].
  split; [rewrite Esgn, _beta_fin; simpl; f_equal; ring |].
  split; [| split; [| split; [| split; [| split]]]].
  - unfold acc. rewrite a_d_fin, Ey by assumption.
    unfold Spec.accel, Spec.tangent, Spec.unit3. cbn [Spec.e0 Spec.e1 Spec.e2].
    rewrite cos_0, sin_0. f_equal. f_equal; ring.
  - unfold acc. rewrite a_d_out_of_plane, Ey, sin_0 by assumption.
    f_equal. ring.
  - intros x. simpl.
    destruct (Rsign_cases x) as [[_ ->] | [[_ ->] | [_ ->]]]; auto.
  - simpl. rewrite Rsign_neg by lra. reflexivity.
  - simpl. rewrite Rsign_0. reflexivity.
  - simpl. rewrite Rsign_pos by lra. reflexivity.
Qed.

Lemma zero_sign_tangential_witness :
  a_d (Fin 1) (Fin 1) (Fin 2) (Fin 0) (Fin 1) (Fin 3)
      (fin_state (Spec.mkR3 0 1 0) (Spec.mkR3 1 0 0))
  = of_R3 (Spec.mkR3 (2 * (1 / Spec.norm3 (Spec.mkR3 1 0 0)))
                     (2 * (0 / Spec.norm3 (Spec.mkR3 1 0 0)))
                     (2 * (0 / Spec.norm3 (Spec.mkR3 1 0 0)))).
Proof.
  refine (proj1 (proj2 (proj2
    (zero_sign_tangential 1 1 2 0 1 3 (Spec.mkR3 0 1 0) (Spec.mkR3 1 0 0)
                          _ _ _))));
    unfold Spec.cross3, Spec.zero3; simpl.
  - intros H. injection H as H. lra.
  - intros H. injection H as _ _ H. lra.
  - left. reflexivity.
Defined.

(** ** The sign of the out-of-plane component *)

Lemma sin_beta_pos (V_0 beta_0 f t : R) :
  0 < V_0 -> 0 < sin beta_0 -> 0 < sin (Spec.beta V_0 beta_0 f t).
Proof.
  intros HV Hs. unfold Spec.beta. apply sin_atan2_pos. nra.
Qed.

Lemma sin_beta_neg (V_0 beta_0 f t : R) :
  0 < V_0 -> sin beta_0 < 0 -> sin (Spec.beta V_0 beta_0 f t) < 0.
Proof.
  intros HV Hs. unfold Spec.beta. apply sin_atan2_neg. nra.
Qed.

(** The yaw angle of a transfer keeps, at every time, the sign that
    [sin(pi/2 di)] has. *)
Lemma sin_beta_entry (k a_0 a_f inc_0 inc_f f t : R) :
  0 < k -> 0 < a_0 ->
  let s := sin (PI / 2 * Spec.delta_i inc_0 inc_f) in
  let b := Spec.beta (Spec.V k a_0) (Spec.beta_0 k a_0 a_f inc_0 inc_f) f t in
  (0 < s -> 0 < sin b) /\ (s < 0 -> sin b < 0).
Proof.
  intros Hk H0 s b.
  assert (HV : 0 < Spec.V k a_0).
  { unfold Spec.V. apply sqrt_lt_R0, Rdiv_lt_0_compat; assumption. }
  split; intros Hs.
  - apply sin_beta_pos; [exact HV |]. unfold Spec.beta_0. apply sin_atan2_pos, Hs.
  - apply sin_beta_neg; [exact HV |]. unfold Spec.beta_0. apply sin_atan2_neg, Hs.
Qed.








(** ** Degenerate states *)

Lemma vscale_nan (s : npfloat) : vscale s nan_vec = nan_vec.
Proof. unfold vscale, nan_vec. simpl. rewrite np_mul_nan_r. reflexivity. Qed.

Lemma vadd_nan_r (u : vec3) : vadd u nan_vec = nan_vec.
Proof. unfold vadd, nan_vec. simpl. rewrite !np_add_nan_r. reflexivity. Qed.

Lemma unit_zero_nan : vdiv (of_R3 Spec.zero3) (norm (of_R3 Spec.zero3)) = nan_vec.
Proof.
  rewrite norm_of_R3, norm3_zero. unfold vdiv, of_R3, nan_vec, Spec.zero3.
  cbn [c0 c1 c2 Spec.e0 Spec.e1 Spec.e2].
  rewrite np_div_zero_zero by reflexivity. reflexivity.
Qed.

(** With [r x v = 0] the orbit normal [w_] is 0/0 in each component, and
    the NaN goes through the products and sums up to the result, whatever
    the other values are. *)
Lemma a_d_degenerate (V_0 beta_0_ f inc_0 inc_f t0 : npfloat) (r v : Spec.R3) :
  Spec.cross3 r v = Spec.zero3 ->
  a_d V_0 beta_0_ f inc_0 inc_f t0 (fin_state r v) = nan_vec.
Proof.
  intros Hc. unfold a_d, fin_state. cbn [ss_r ss_v].
  rewrite cross_of_R3, Hc, unit_zero_nan.
  rewrite vscale_nan, vadd_nan_r, vscale_nan. reflexivity.
Qed.

Lemma cross3_zero_v (r : Spec.R3) : Spec.cross3 r Spec.zero3 = Spec.zero3.
Proof. unfold Spec.cross3, Spec.zero3. simpl. f_equal; ring. Qed.

Lemma edelbaum_ai_a_d (k a_0 a_f inc_0 inc_f f : npfloat) :
  exists V_0 beta_0_ : npfloat,
    ret_a_d (edelbaum_ai k a_0 a_f inc_0 inc_f f) = a_d V_0 beta_0_ f inc_0 inc_f.
Proof.
  unfold edelbaum_ai, _extra_quantities.
  destruct (_compute_parameters k a_0 a_f inc_0 inc_f) as [[V_0 beta_0_] d].
  exists V_0, beta_0_. reflexivity.
Qed.

(** C7, as the code has it.  The acceleration function has no error to
    signal: on a state with [v = 0], or with [r x v = 0], it returns the
    array of three NaN, at every elapsed time and for every construction
    input. *)
Theorem degenerate_state_nan (k a_0 a_f inc_0 inc_f f t0 : npfloat)
        (r v : Spec.R3) :
  v = Spec.zero3 \/ Spec.cross3 r v = Spec.zero3 ->
  ret_a_d (edelbaum_ai k a_0 a_f inc_0 inc_f f) t0 (fin_state r v) = nan_vec.
Proof.
  intros H.
  destruct (edelbaum_ai_a_d k a_0 a_f inc_0 inc_f f) as (V_0 & beta_0_ & ->).
  apply a_d_degenerate.
  destruct H as [-> | H]; [apply cross3_zero_v | exact H].
Qed.

Lemma degenerate_state_nan_witness :
  ret_a_d (edelbaum_ai (Fin 1) (Fin 1) (Fin 4) (Fin 0) (Fin 1) (Fin 2))
          (Fin 3) (fin_state (Spec.mkR3 2 0 0) (Spec.mkR3 5 0 0))
  = nan_vec.
Proof.
  apply degenerate_state_nan. right.
  unfold Spec.cross3, Spec.zero3. simpl. f_equal; ring.
Defined.

(** C7 fails as stated: with [v = (0, 0, 0)] the acceleration function of
    the transfer from 7000 to 42000 returns three NaN at [t = 0]. *)
Lemma zero_velocity_returns_nan :
  ret_a_d (edelbaum_ai (Fin 398600) (Fin 7000) (Fin 42000)
                       (Fin 0) (Fin (1 / 2)) (Fin 1))
          (Fin 0) (fin_state (Spec.mkR3 7000 0 0) (Spec.mkR3 0 0 0))
  = Vec3 NaN NaN NaN.
Proof.
  destruct (edelbaum_ai_a_d (Fin 398600) (Fin 7000) (Fin 42000)
                            (Fin 0) (Fin (1 / 2)) (Fin 1))
    as (V_0 & beta_0_ & ->).
  apply a_d_degenerate, cross3_zero_v.
Qed.

(** ** No inclination change *)

Lemma V_pos (k a : R) : 0 < k -> 0 < a -> 0 < Spec.V k a.
Proof.
  intros Hk Ha. unfold Spec.V. apply sqrt_lt_R0, Rdiv_lt_0_compat; assumption.
Qed.

Lemma V_decreasing (k a b : R) :
  0 < k -> 0 < a -> a < b -> Spec.V k b < Spec.V k a.
Proof.
  intros Hk Ha Hab. unfold Spec.V. apply sqrt_lt_1_alt. split.
  - left. apply Rdiv_lt_0_compat; lra.
  - unfold Rdiv. apply Rmult_lt_compat_l; [exact Hk |].
    apply Rinv_lt_contravar; [nra | exact Hab].
Qed.

Lemma V_ratio_minus_one (k a_0 a_f : R) :
  0 < k -> 0 < a_0 -> 0 < a_f ->
  (a_0 <= a_f -> 0 <= Spec.V k a_0 / Spec.V k a_f - 1) /\
  (a_f < a_0 -> Spec.V k a_0 / Spec.V k a_f - 1 < 0).
Proof.
  intros Hk H0 Hf.
  pose proof (V_pos k a_0 Hk H0) as P0. pose proof (V_pos k a_f Hk Hf) as Pf.
  pose proof (Rinv_0_lt_compat _ Pf) as Pi.
  replace (Spec.V k a_0 / Spec.V k a_f - 1)
    with ((Spec.V k a_0 - Spec.V k a_f) * / Spec.V k a_f) by (field; lra).
  split; intros H.
  - destruct H as [H | ->].
    + pose proof (V_decreasing k a_0 a_f Hk H0 H). nra.
    + nra.
  - pose proof (V_decreasing k a_f a_0 Hk Hf H). nra.
Qed.

Lemma beta_0_no_inclination (k a_0 a_f inc : R) :
  0 < k -> 0 < a_0 -> 0 < a_f ->
  (a_0 <= a_f -> Spec.beta_0 k a_0 a_f inc inc = 0) /\
  (a_f < a_0 -> Spec.beta_0 k a_0 a_f inc inc = PI).
Proof.
  intros Hk H0 Hf. unfold Spec.beta_0.
  rewrite delta_i_same, Rmult_0_r, sin_0, cos_0.
  destruct (V_ratio_minus_one k a_0 a_f Hk H0 Hf) as [Hle Hlt].
  split; intros H.
  - apply atan2_0_nonneg, Hle, H.
  - apply atan2_0_neg, Hlt, H.
Qed.

(** With [di = 0] and [beta_0 = 0] the quotient of the formula is 0/0. *)
Lemma _delta_V_no_inclination (V_0 inc : R) :
  _delta_V (Fin V_0) (Fin 0) (Fin inc) (Fin inc) = NaN.
Proof.
  rewrite _delta_V_unfold, delta_i_same.
  replace (PI / 2 * 0 + 0) with 0 by ring.
  rewrite np_tan_fin by (rewrite cos_0; lra).
  rewrite np_div_zero_zero; [reflexivity | rewrite sin_0; ring | apply tan_0].
Qed.

(** With [inc_f = inc_0] and [a_0 <= a_f] the velocity increment and the
    transfer time that [edelbaum_ai] returns are NaN. *)
Lemma no_inclination_change_nan (k a_0 a_f inc f : R) :
  0 < k -> 0 < a_0 -> 0 < a_f -> a_0 <= a_f ->
  ret_delta_V (edelbaum_ai (Fin k) (Fin a_0) (Fin a_f) (Fin inc) (Fin inc)
                           (Fin f)) = NaN /\
  ret_t_f (edelbaum_ai (Fin k) (Fin a_0) (Fin a_f) (Fin inc) (Fin inc)
                       (Fin f)) = NaN.
Proof.
  intros Hk H0 Hf Hle.
  rewrite edelbaum_ai_fin by assumption. unfold ret_delta_V, ret_t_f.
  cbn [fst snd].
  destruct (beta_0_no_inclination k a_0 a_f inc Hk H0 Hf) as [E _].
  rewrite (E Hle), _delta_V_no_inclination. split; reflexivity.
Qed.

(** C6, as the code has it.  With [inc_f = inc_0] on a valid input, the
    initial yaw angle that [edelbaum_ai] derives and its acceleration
    function captures is 0 when [a_0 <= a_f] and [pi] when [a_f < a_0]. *)
Theorem no_inclination_change (k a_0 a_f inc f : R) :
  0 < k -> 0 < a_0 -> 0 < a_f ->
  let beta_0_ := snd (fst (_compute_parameters (Fin k) (Fin a_0) (Fin a_f)
                                               (Fin inc) (Fin inc))) in
  let g := ret_a_d (edelbaum_ai (Fin k) (Fin a_0) (Fin a_f) (Fin inc)
                                (Fin inc) (Fin f)) in
  (a_0 <= a_f ->
   beta_0_ = Fin 0 /\
   g = a_d (Fin (Spec.V k a_0)) (Fin 0) (Fin f) (Fin inc) (Fin inc)) /\
  (a_f < a_0 ->
   beta_0_ = Fin PI /\
   g = a_d (Fin (Spec.V k a_0)) (Fin PI) (Fin f) (Fin inc) (Fin inc)).
Proof.
  intros Hk H0 Hf beta_0_ g. unfold beta_0_, g.
  rewrite edelbaum_ai_fin, _compute_parameters_fin by assumption.
  unfold ret_a_d. cbn [fst snd].
  destruct (beta_0_no_inclination k a_0 a_f inc Hk H0 Hf) as [Hle Hlt].
  split; intros H.
  - rewrite (Hle H). split; reflexivity.
  - rewrite (Hlt H). split; reflexivity.
Qed.

Lemma no_inclination_change_witness :
  snd (fst (_compute_parameters (Fin 1) (Fin 4) (Fin 1) (Fin 0) (Fin 0)))
  = Fin PI.
Proof.
  refine (proj1 (proj2 (no_inclination_change 1 4 1 0 2 _ _ _) _)); lra.
Defined.

(** C6 fails as stated.  For [k = 1], [a_0 = 4], [a_f = 1] with equal
    inclinations the initial yaw angle is [pi], not 0; and for
    [k = 398600], [a_0 = a_f = 7000] with equal inclinations
    [edelbaum_ai] returns NaN, not 0, for the velocity increment and for
    the transfer time. *)
Lemma equal_inclinations_counterexample :
  snd (fst (_compute_parameters (Fin 1) (Fin 4) (Fin 1) (Fin 0) (Fin 0)))
  = Fin PI /\
  Fin PI <> Fin 0 /\
  ret_delta_V (edelbaum_ai (Fin 398600) (Fin 7000) (Fin 7000) (Fin 0) (Fin 0)
                           (Fin 1)) = NaN /\
  ret_t_f (edelbaum_ai (Fin 398600) (Fin 7000) (Fin 7000) (Fin 0) (Fin 0)
                       (Fin 1)) = NaN.
Proof.
  split; [| split].
  - rewrite _compute_parameters_fin by lra. cbn [fst snd]. f_equal.
    destruct (beta_0_no_inclination 1 4 1 0) as [_ Hlt]; [lra | lra | lra |].
    apply Hlt. lra.
  - intros H. injection H as H. pose proof PI_RGT_0. lra.
  - apply no_inclination_change_nan; lra.
Qed.

(** ** The velocity increment in closed form *)

Section ClosedForm.

Variables V_0 V_f y c rho : R.
Hypothesis HV0 : 0 < V_0.
Hypothesis HVf : 0 < V_f.
Hypothesis Hy : y <> 0.
Hypothesis Hrho : 0 < rho.
Hypothesis Hsq : rho * rho = (V_0 / V_f - c) * (V_0 / V_f - c) + y * y.




End ClosedForm.





Lemma np_eqb_nan_r (a : npfloat) : np_eqb a NaN = false.
Proof. destruct a; reflexivity. Qed.

(** C9 fails on the code.  Raising the orbit from 7000 to 42000 without a
    plane change, [edelbaum_ai] returns NaN for the velocity increment: it
    compares equal to no value, the increment of the reversed transfer
    included. *)
Theorem orbit_raising_delta_V_nan :
  ret_delta_V (edelbaum_ai (Fin 398600) (Fin 7000) (Fin 42000)
                           (Fin 0) (Fin 0) (Fin 1)) = NaN /\
  forall x : npfloat,
    np_eqb x (ret_delta_V (edelbaum_ai (Fin 398600) (Fin 7000) (Fin 42000)
                                       (Fin 0) (Fin 0) (Fin 1))) = false.
Proof.
  destruct (no_inclination_change_nan 398600 7000 42000 0 1) as [E _];
    [lra | lra | lra | lra |].
  rewrite E. split; [reflexivity | apply np_eqb_nan_r].
Qed.

(** * Further properties of the guidance law *)

(** ** Range and inverse of the two-argument arctangent *)

Lemma atan2_bound (y x : R) : - PI < atan2 y x <= PI.
Proof.
  pose proof PI_RGT_0 as Hpi. unfold atan2.
  destruct (Rlt_dec 0 x) as [Hx | Hx].
  - pose proof (atan_bound (y / x)). lra.
  - destruct (Rlt_dec x 0) as [Hx' | Hx'].
    + pose proof (atan_bound (y / x)) as Hb.
      destruct (Rlt_dec y 0) as [Hy | Hy].
      * assert (0 < y / x).
        { unfold Rdiv. replace (y * / x) with ((- y) * / (- x)) by (field; lra).
          apply Rmult_lt_0_compat; [lra | apply Rinv_0_lt_compat; lra]. }
        pose proof (atan_increasing 0 (y / x) H) as Hi. rewrite atan_0 in Hi. lra.
      * assert (y / x <= 0).
        { unfold Rdiv. replace (y * / x) with (- (y * / (- x))) by (field; lra).
          assert (0 <= y * / - x); [| lra].
          apply Rmult_le_pos; [lra | left; apply Rinv_0_lt_compat; lra]. }
        destruct H as [H | H].
        -- pose proof (atan_increasing (y / x) 0 H) as Hi. rewrite atan_0 in Hi. lra.
        -- rewrite H, atan_0. lra.
    + destruct (Rlt_dec 0 y); [lra |]. destruct (Rlt_dec y 0); lra.
Qed.

(** An angle of (-pi, pi] is determined by its sine and its cosine. *)
Lemma angle_unique (a b : R) :
  - PI < a <= PI -> - PI < b <= PI ->
  sin a = sin b -> cos a = cos b -> a = b.
Proof.
  intros Ha Hb Hs Hc. pose proof PI_RGT_0 as Hpi.
  assert (Hsd : sin (a - b) = 0) by (rewrite sin_minus, Hs, Hc; ring).
  assert (Hcd : cos (a - b) = 1).
  { rewrite cos_minus, Hs, Hc. pose proof (sin2_cos2 b) as H. unfold Rsqr in H. lra. }
  destruct (Rle_dec 0 (a - b)) as [Hd | Hd].
  - destruct (sin_eq_O_2PI_0 (a - b)) as [E | [E | E]]; try lra.
    rewrite E, cos_PI in Hcd. lra.
  - assert (Hsn : sin (- (a - b)) = 0) by (rewrite sin_neg, Hsd; ring).
    destruct (sin_eq_O_2PI_0 (- (a - b))) as [E | [E | E]]; try lra.
    rewrite <- cos_neg, E, cos_PI in Hcd. lra.
Qed.

Lemma atan2_polar (rho b : R) :
  0 < rho -> - PI < b <= PI -> atan2 (rho * sin b) (rho * cos b) = b.
Proof.
  intros Hrho Hb.
  pose proof (sin2_cos2 b) as H1. unfold Rsqr in H1.
  assert (Hsq : sqrt (rho * cos b * (rho * cos b) + rho * sin b * (rho * sin b)) = rho).
  { apply sqrt_lem_1; [nra | lra |].
    replace (rho * cos b * (rho * cos b) + rho * sin b * (rho * sin b))
      with (rho * rho * (sin b * sin b + cos b * cos b)) by ring.
    rewrite H1. ring. }
  assert (Hxy : rho * cos b <> 0 \/ rho * sin b <> 0).
  { destruct (Req_dec_T (cos b) 0) as [E | E].
    - right. rewrite E in H1. assert (sin b <> 0) by nra.
      apply Rmult_integral_contrapositive_currified; lra.
    - left. apply Rmult_integral_contrapositive_currified; lra. }
  destruct (atan2_cos_sin _ _ Hxy) as [Hc Hs]. rewrite Hsq in Hc, Hs.
  apply angle_unique; [apply atan2_bound | exact Hb | |].
  - rewrite Hs. field. lra.
  - rewrite Hc. field. lra.
Qed.

(** For a positive first argument the angle is [pi/2 - atan(x / y)]: it
    lies between 0 and [pi] and decreases as [x] grows. *)
Lemma atan2_pos_y (y x : R) : 0 < y -> atan2 y x = PI / 2 - atan (x / y).
Proof.
  intros Hy. unfold atan2.
  destruct (Rlt_dec 0 x) as [Hx | Hx].
  - assert (Hq : 0 < x / y) by (apply Rdiv_lt_0_compat; assumption).
    rewrite <- (atan_inv (x / y) Hq). f_equal. field. lra.
  - destruct (Rlt_dec x 0) as [Hx' | Hx'].
    + destruct (Rlt_dec y 0) as [Hy' | _]; [lra |].
      assert (Hq : 0 < - x / y) by (apply Rdiv_lt_0_compat; lra).
      pose proof (atan_inv (- x / y) Hq) as Hi.
      replace (/ (- x / y)) with (- (y / x)) in Hi by (field; lra).
      replace (- x / y) with (- (x / y)) in Hi by (field; lra).
      rewrite !atan_opp in Hi. lra.
    + assert (x = 0) by lra. subst x.
      destruct (Rlt_dec 0 y) as [_ | N]; [| lra].
      unfold Rdiv. rewrite Rmult_0_l, atan_0. lra.
Qed.

Lemma atan2_pos_y_range (y x : R) : 0 < y -> 0 < atan2 y x < PI.
Proof.
  intros Hy. rewrite atan2_pos_y by exact Hy.
  pose proof (atan_bound (x / y)). lra.
Qed.

Lemma atan2_pos_y_decreasing (y x1 x2 : R) :
  0 < y -> x1 < x2 -> atan2 y x2 < atan2 y x1.
Proof.
  intros Hy Hx. rewrite !atan2_pos_y by exact Hy.
  assert (x1 / y < x2 / y).
  { unfold Rdiv. apply Rmult_lt_compat_r; [apply Rinv_0_lt_compat, Hy | exact Hx]. }
  pose proof (atan_increasing _ _ H). lra.
Qed.

(** ** The yaw angle over the transfer *)

Lemma sin_theta_pos (inc_0 inc_f : R) :
  0 < Rabs (inc_f - inc_0) < 2 ->
  0 < sin (PI / 2 * Spec.delta_i inc_0 inc_f).
Proof.
  intros [Hl Hu]. unfold Spec.delta_i. pose proof PI_RGT_0.
  apply sin_gt_0; nra.
Qed.

Lemma beta_0_range (k a_0 a_f inc_0 inc_f : R) :
  0 < Rabs (inc_f - inc_0) < 2 ->
  0 < Spec.beta_0 k a_0 a_f inc_0 inc_f < PI.
Proof.
  intros H. unfold Spec.beta_0. apply atan2_pos_y_range, sin_theta_pos, H.
Qed.

Lemma V_sin_beta_0_pos (k a_0 a_f inc_0 inc_f : R) :
  0 < k -> 0 < a_0 -> 0 < Rabs (inc_f - inc_0) < 2 ->
  0 < Spec.V k a_0 * sin (Spec.beta_0 k a_0 a_f inc_0 inc_f).
Proof.
  intros Hk H0 H. apply Rmult_lt_0_compat; [apply V_pos; assumption |].
  destruct (beta_0_range k a_0 a_f inc_0 inc_f H). apply sin_gt_0; assumption.
Qed.

(** X1.  At the elapsed time 0 the yaw angle of [_beta] is the initial yaw
    angle that [_compute_parameters] derived. *)
Theorem yaw_at_time_zero (k a_0 a_f inc_0 inc_f f : R) :
  0 < k -> 0 < a_0 -> 0 < a_f ->
  let p := _compute_parameters (Fin k) (Fin a_0) (Fin a_f)
                               (Fin inc_0) (Fin inc_f) in
  _beta (Fin 0) (fst (fst p)) (Fin f) (snd (fst p)) = snd (fst p).
Proof.
  intros Hk H0 Hf p. unfold p.
  rewrite _compute_parameters_fin by assumption. cbn [fst snd].
  rewrite _beta_fin. f_equal. unfold Spec.beta.
  replace (Spec.V k a_0 * cos (Spec.beta_0 k a_0 a_f inc_0 inc_f) - f * 0)
    with (Spec.V k a_0 * cos (Spec.beta_0 k a_0 a_f inc_0 inc_f)) by ring.
  apply atan2_polar; [apply V_pos; assumption |].
  unfold Spec.beta_0. apply atan2_bound.
Qed.

Lemma yaw_at_time_zero_witness :
  _beta (Fin 0)
        (fst (fst (_compute_parameters (Fin 1) (Fin 1) (Fin 4) (Fin 0) (Fin 1))))
        (Fin 2)
        (snd (fst (_compute_parameters (Fin 1) (Fin 1) (Fin 4) (Fin 0) (Fin 1))))
  = snd (fst (_compute_parameters (Fin 1) (Fin 1) (Fin 4) (Fin 0) (Fin 1))).
Proof. apply (yaw_at_time_zero 1 1 4 0 1 2); lra. Defined.

(** X2.  When the inclination change is strictly between 0 and 2 radians,
    the yaw angle stays strictly between 0 and [pi] at every elapsed time,
    whatever the thrust. *)
Theorem yaw_between_0_and_pi (k a_0 a_f inc_0 inc_f f t : R) :
  0 < k -> 0 < a_0 -> 0 < a_f -> 0 < Rabs (inc_f - inc_0) < 2 ->
  let p := _compute_parameters (Fin k) (Fin a_0) (Fin a_f)
                               (Fin inc_0) (Fin inc_f) in
  exists b : R,
    _beta (Fin t) (fst (fst p)) (Fin f) (snd (fst p)) = Fin b /\ 0 < b < PI.
Proof.
  intros Hk H0 Hf Hd p. unfold p.
  rewrite _compute_parameters_fin by assumption. cbn [fst snd].
  rewrite _beta_fin. eexists. split; [reflexivity |].
  unfold Spec.beta. apply atan2_pos_y_range, V_sin_beta_0_pos; assumption.
Qed.

Lemma Rabs_1_0 : 0 < Rabs (1 - 0) < 2.
Proof. replace (1 - 0) with 1 by ring. rewrite Rabs_R1. lra. Qed.

Lemma yaw_between_0_and_pi_witness :
  exists b : R,
    _beta (Fin 3)
      (fst (fst (_compute_parameters (Fin 1) (Fin 1) (Fin 4) (Fin 0) (Fin 1))))
      (Fin 2)
      (snd (fst (_compute_parameters (Fin 1) (Fin 1) (Fin 4) (Fin 0) (Fin 1))))
    = Fin b /\ 0 < b < PI.
Proof.
  apply (yaw_between_0_and_pi 1 1 4 0 1 2 3); try lra. exact Rabs_1_0.
Defined.

(** X3.  With a positive thrust and an inclination change strictly between
    0 and 2 radians, the yaw angle grows with the elapsed time. *)
Theorem yaw_increases_with_time (k a_0 a_f inc_0 inc_f f t1 t2 : R) :
  0 < k -> 0 < a_0 -> 0 < a_f -> 0 < f -> 0 < Rabs (inc_f - inc_0) < 2 ->
  t1 < t2 ->
  let p := _compute_parameters (Fin k) (Fin a_0) (Fin a_f)
                               (Fin inc_0) (Fin inc_f) in
  exists b1 b2 : R,
    _beta (Fin t1) (fst (fst p)) (Fin f) (snd (fst p)) = Fin b1 /\
    _beta (Fin t2) (fst (fst p)) (Fin f) (snd (fst p)) = Fin b2 /\
    b1 < b2.
Proof.
  intros Hk H0 Hf Hpos Hd Ht p. unfold p.
  rewrite _compute_parameters_fin by assumption. cbn [fst snd].
  rewrite !_beta_fin. eexists. eexists. split; [reflexivity |].
  split; [reflexivity |]. unfold Spec.beta.
  apply atan2_pos_y_decreasing; [apply V_sin_beta_0_pos; assumption | nra].
Qed.

Lemma yaw_increases_with_time_witness :
  exists b1 b2 : R,
    _beta (Fin 0)
      (fst (fst (_compute_parameters (Fin 1) (Fin 1) (Fin 4) (Fin 0) (Fin 1))))
      (Fin 2)
      (snd (fst (_compute_parameters (Fin 1) (Fin 1) (Fin 4) (Fin 0) (Fin 1))))
    = Fin b1 /\
    _beta (Fin 3)
      (fst (fst (_compute_parameters (Fin 1) (Fin 1) (Fin 4) (Fin 0) (Fin 1))))
      (Fin 2)
      (snd (fst (_compute_parameters (Fin 1) (Fin 1) (Fin 4) (Fin 0) (Fin 1))))
    = Fin b2 /\
    b1 < b2.
Proof.
  apply (yaw_increases_with_time 1 1 4 0 1 2 0 3); try lra. exact Rabs_1_0.
Defined.

(** ** The velocity increment and the transfer time *)


(** X6.  The velocity increment and the transfer time depend on the two
    inclinations only through [|inc_f - inc_0|]. *)
Theorem delta_V_depends_on_abs_delta (k a_0 a_f inc_0 inc_f inc_0' inc_f' : R)
        (f : npfloat) :
  0 < k -> 0 < a_0 -> 0 < a_f ->
  Rabs (inc_f' - inc_0') = Rabs (inc_f - inc_0) ->
  let res := edelbaum_ai (Fin k) (Fin a_0) (Fin a_f) (Fin inc_0) (Fin inc_f) f in
  let res' := edelbaum_ai (Fin k) (Fin a_0) (Fin a_f) (Fin inc_0') (Fin inc_f') f in
  ret_delta_V res' = ret_delta_V res /\ ret_t_f res' = ret_t_f res.
Proof.
  intros Hk H0 Hf Hd res res'. unfold res, res'.
  rewrite !edelbaum_ai_fin by assumption.
  unfold ret_delta_V, ret_t_f. cbn [fst snd].
  rewrite !_delta_V_unfold. unfold Spec.beta_0, Spec.delta_i. rewrite Hd.
  split; reflexivity.
Qed.

Lemma delta_V_depends_on_abs_delta_witness :
  ret_delta_V (edelbaum_ai (Fin 1) (Fin 1) (Fin 4) (Fin 3) (Fin 2) (Fin 2))
  = ret_delta_V (edelbaum_ai (Fin 1) (Fin 1) (Fin 4) (Fin 0) (Fin 1) (Fin 2)).
Proof.
  refine (proj1 (delta_V_depends_on_abs_delta 1 1 4 0 1 3 2 (Fin 2) _ _ _ _));
    try lra.
  replace (2 - 3) with (- (1)) by ring. replace (1 - 0) with 1 by ring.
  apply Rabs_Ropp.
Defined.

(** ** The yaw angle at the end of the transfer *)




(** ** The components of the acceleration *)

Lemma accel_tangent (f b : R) (r v : Spec.R3) :
  v <> Spec.zero3 ->
  Spec.dot3 (Spec.accel f b r v) (Spec.tangent v) = f * cos b.
Proof.
  intros Hv.
  pose proof (unit3_norm v Hv) as Ht.
  pose proof (tangent_normal_orth r v) as Ho.
  unfold Spec.normal, Spec.tangent in *.
  set (tv := Spec.unit3 v) in *. set (wv := Spec.unit3 (Spec.cross3 r v)) in *.
  unfold Spec.accel, Spec.dot3 in *. cbn [Spec.e0 Spec.e1 Spec.e2].
  unfold Spec.normal, Spec.tangent. fold tv wv.
  set (t0 := Spec.e0 tv) in *. set (t1 := Spec.e1 tv) in *. set (t2 := Spec.e2 tv) in *.
  set (w0 := Spec.e0 wv) in *. set (w1 := Spec.e1 wv) in *. set (w2 := Spec.e2 wv) in *.
  replace (f * (cos b * t0 + sin b * w0) * t0 + f * (cos b * t1 + sin b * w1) * t1 +
           f * (cos b * t2 + sin b * w2) * t2)
    with (f * (cos b * (t0 * t0 + t1 * t1 + t2 * t2)
               + sin b * (t0 * w0 + t1 * w1 + t2 * w2))) by ring.
  rewrite Ht, Ho. ring.
Qed.

Lemma accel_binormal (f b : R) (r v : Spec.R3) :
  Spec.dot3 (Spec.accel f b r v)
            (Spec.cross3 (Spec.tangent v) (Spec.normal r v)) = 0.
Proof.
  unfold Spec.accel, Spec.dot3, Spec.cross3. cbn [Spec.e0 Spec.e1 Spec.e2].
  ring.
Qed.

Lemma sin_cos_times_sign (b s : R) :
  s = 1 \/ s = -1 -> sin (b * s) = s * sin b /\ cos (b * s) = cos b.
Proof.
  intros [-> | ->].
  - rewrite Rmult_1_r. split; ring.
  - replace (b * -1) with (- b) by ring. rewrite sin_neg, cos_neg. split; ring.
Qed.

(** X8.  On a non-degenerate state with [r_x (inc_f - inc_0)] not zero,
    the acceleration has the component [f cos(beta(t))] along the velocity,
    the component [s f sin(beta(t))] along the orbit normal, where [s] is
    the sign of [r_x (inc_f - inc_0)], and no component along the third
    direction [t_ x w_]: the sign correction touches the out-of-plane
    component only. *)
Theorem acceleration_components (V_0 beta_0 f inc_0 inc_f t : R)
        (r v : Spec.R3) :
  Spec.cross3 r v <> Spec.zero3 ->
  Spec.e0 r * (inc_f - inc_0) <> 0 ->
  let ss := fin_state r v in
  let acc := a_d (Fin V_0) (Fin beta_0) (Fin f) (Fin inc_0) (Fin inc_f)
                 (Fin t) ss in
  let t_ := vdiv (ss_v ss) (norm (ss_v ss)) in
  let w_ := vdiv (cross (ss_r ss) (ss_v ss)) (norm (cross (ss_r ss) (ss_v ss))) in
  let b := atan2 (V_0 * sin beta_0) (V_0 * cos beta_0 - f * t) in
  dot acc t_ = Fin (f * cos b) /\
  dot acc w_ = Fin (Rsign (Spec.e0 r * (inc_f - inc_0)) * (f * sin b)) /\
  dot acc (cross t_ w_) = Fin 0.
Proof.
  intros Hc Hp ss acc t_ w_ b.
  pose proof (cross3_nonzero_v r v Hc) as Hv.
  unfold acc, t_, w_, ss, fin_state. cbn [ss_r ss_v].
  fold (fin_state r v). rewrite a_d_fin by assumption.
  rewrite cross_of_R3, !unit_of_R3 by assumption.
  rewrite cross_of_R3, !dot_of_R3.
  fold (Spec.tangent v) (Spec.normal r v).
  rewrite accel_tangent, accel_normal, accel_binormal by assumption.
  unfold Spec.yaw, Spec.beta. fold b.
  destruct (sin_cos_times_sign b _ (Rsign_nonzero _ Hp)) as [-> ->].
  repeat split. f_equal. ring.
Qed.

Lemma acceleration_components_witness :
  dot (a_d (Fin 1) (Fin 1) (Fin 2) (Fin 0) (Fin 1) (Fin 3)
           (fin_state (Spec.mkR3 1 0 0) (Spec.mkR3 0 1 0)))
      (vdiv (ss_v (fin_state (Spec.mkR3 1 0 0) (Spec.mkR3 0 1 0)))
            (norm (ss_v (fin_state (Spec.mkR3 1 0 0) (Spec.mkR3 0 1 0)))))
  = Fin (2 * cos (atan2 (1 * sin 1) (1 * cos 1 - 2 * 3))).
Proof.
  refine (proj1 (acceleration_components 1 1 2 0 1 3
                   (Spec.mkR3 1 0 0) (Spec.mkR3 0 1 0) _ _)).
  - unfold Spec.cross3, Spec.zero3. simpl. intros H. injection H as _ _ H. lra.
  - simpl. lra.
Defined.

(** X9.  For a valid construction input with a positive thrust and an
    inclination change strictly between 0 and 2 radians, the out-of-plane
    component of the acceleration at a non-degenerate state has the sign of
    [r_x (inc_f - inc_0)]. *)
Theorem out_of_plane_sign (k a_0 a_f inc_0 inc_f f t : R) (r v : Spec.R3) :
  0 < k -> 0 < a_0 -> 0 < a_f -> 0 < f -> 0 < Rabs (inc_f - inc_0) < 2 ->
  Spec.e0 r <> 0 -> Spec.cross3 r v <> Spec.zero3 ->
  let g := ret_a_d (edelbaum_ai (Fin k) (Fin a_0) (Fin a_f)
                                (Fin inc_0) (Fin inc_f) (Fin f)) in
  exists c : R,
    out_of_plane (g (Fin t) (fin_state r v)) (fin_state r v) = Fin c /\
    0 < c * (Spec.e0 r * (inc_f - inc_0)).
Proof.
  intros Hk H0 Hf Hpos Hd Hrx Hc g. unfold g.
  rewrite edelbaum_ai_fin by assumption. unfold ret_a_d. cbn [fst].
  rewrite a_d_out_of_plane by assumption.
  eexists. split; [reflexivity |].
  assert (Hi : inc_f - inc_0 <> 0).
  { intros E. rewrite E, Rabs_R0 in Hd. lra. }
  assert (Hp : Spec.e0 r * (inc_f - inc_0) <> 0).
  { apply Rmult_integral_contrapositive_currified; assumption. }
  assert (Hsb : 0 < sin (Spec.beta (Spec.V k a_0)
                                   (Spec.beta_0 k a_0 a_f inc_0 inc_f) f t)).
  { destruct (sin_beta_entry k a_0 a_f inc_0 inc_f f t Hk H0) as [P _].
    apply P, sin_theta_pos, Hd. }
  unfold Spec.yaw.
  set (b := Spec.beta (Spec.V k a_0) (Spec.beta_0 k a_0 a_f inc_0 inc_f) f t) in *.
  set (q := Spec.e0 r * (inc_f - inc_0)) in *.
  assert (Hfs : 0 < f * sin b) by (apply Rmult_lt_0_compat; assumption).
  destruct (Rsign_cases q) as [[Hq E] | [[Hq _] | [Hq E]]]; [| contradiction |].
  - rewrite E. replace (b * -1) with (- b) by ring. rewrite sin_neg.
    replace (f * - sin b * q) with (f * sin b * (- q)) by ring.
    apply Rmult_lt_0_compat; lra.
  - rewrite E, Rmult_1_r. apply Rmult_lt_0_compat; lra.
Qed.

Lemma out_of_plane_sign_witness :
  exists c : R,
    out_of_plane
      (ret_a_d (edelbaum_ai (Fin 1) (Fin 1) (Fin 4) (Fin 0) (Fin 1) (Fin 2))
               (Fin 3) (fin_state (Spec.mkR3 1 0 0) (Spec.mkR3 0 1 0)))
      (fin_state (Spec.mkR3 1 0 0) (Spec.mkR3 0 1 0)) = Fin c /\
    0 < c * (Spec.e0 (Spec.mkR3 1 0 0) * (1 - 0)).
Proof.
  apply (out_of_plane_sign 1 1 4 0 1 2 3 (Spec.mkR3 1 0 0) (Spec.mkR3 0 1 0));
    try lra; try exact Rabs_1_0.
  - simpl. lra.
  - unfold Spec.cross3, Spec.zero3. simpl. intros H. injection H as _ _ H. lra.
Defined.

(** ** The acceleration depends on directions only *)

Lemma norm3_scale (l : R) (u : Spec.R3) :
  0 < l -> Spec.norm3 (Spec.scale3 l u) = l * Spec.norm3 u.
Proof.
  intros Hl. unfold Spec.norm3.
  replace (Spec.dot3 (Spec.scale3 l u) (Spec.scale3 l u))
    with (l * l * Spec.dot3 u u)
    by (unfold Spec.dot3, Spec.scale3; cbn [Spec.e0 Spec.e1 Spec.e2]; ring).
  rewrite sqrt_mult_alt by nra. rewrite sqrt_square by lra. reflexivity.
Qed.

Lemma unit3_scale (l : R) (u : Spec.R3) :
  0 < l -> u <> Spec.zero3 -> Spec.unit3 (Spec.scale3 l u) = Spec.unit3 u.
Proof.
  intros Hl Hu. pose proof (norm3_pos u Hu) as Hn.
  unfold Spec.unit3. rewrite norm3_scale by exact Hl.
  unfold Spec.scale3. cbn [Spec.e0 Spec.e1 Spec.e2].
  f_equal; field; lra.
Qed.

Lemma cross3_scale (l m : R) (r v : Spec.R3) :
  Spec.cross3 (Spec.scale3 l r) (Spec.scale3 m v)
  = Spec.scale3 (l * m) (Spec.cross3 r v).
Proof.
  unfold Spec.cross3, Spec.scale3. cbn [Spec.e0 Spec.e1 Spec.e2].
  f_equal; ring.
Qed.

Lemma scale3_nonzero (l : R) (u : Spec.R3) :
  0 < l -> u <> Spec.zero3 -> Spec.scale3 l u <> Spec.zero3.
Proof.
  intros Hl Hu E. apply Hu. destruct u as [a b c].
  unfold Spec.scale3, Spec.zero3 in *. cbn [Spec.e0 Spec.e1 Spec.e2] in E.
  injection E as Ea Eb Ec.
  assert (a = 0) by nra. assert (b = 0) by nra. assert (c = 0) by nra.
  subst. reflexivity.
Qed.

Lemma Rsign_scale (l x : R) : 0 < l -> Rsign (l * x) = Rsign x.
Proof.
  intros Hl.
  destruct (Rsign_cases x) as [[H E] | [[H E] | [H E]]]; rewrite E.
  - apply Rsign_neg. nra.
  - subst x. rewrite Rmult_0_r. apply Rsign_0.
  - apply Rsign_pos. nra.
Qed.

(** X10.  At a non-degenerate state the acceleration depends on the
    directions of the position and of the velocity only: multiplying the
    position and the velocity by positive factors does not change it. *)
Theorem acceleration_scale_invariant (V_0 beta_0 f inc_0 inc_f t l m : R)
        (r v : Spec.R3) :
  0 < l -> 0 < m -> Spec.cross3 r v <> Spec.zero3 ->
  a_d (Fin V_0) (Fin beta_0) (Fin f) (Fin inc_0) (Fin inc_f) (Fin t)
      (fin_state (Spec.scale3 l r) (Spec.scale3 m v))
  = a_d (Fin V_0) (Fin beta_0) (Fin f) (Fin inc_0) (Fin inc_f) (Fin t)
        (fin_state r v).
Proof.
  intros Hl Hm Hc. pose proof (cross3_nonzero_v r v Hc) as Hv.
  assert (Hlm : 0 < l * m) by (apply Rmult_lt_0_compat; assumption).
  assert (Hc' : Spec.cross3 (Spec.scale3 l r) (Spec.scale3 m v) <> Spec.zero3).
  { rewrite cross3_scale. apply scale3_nonzero; assumption. }
  rewrite !a_d_fin by (try assumption; apply scale3_nonzero; assumption).
  f_equal. unfold Spec.accel, Spec.tangent, Spec.normal, Spec.yaw.
  rewrite cross3_scale, !unit3_scale by assumption.
  replace (Spec.e0 (Spec.scale3 l r) * (inc_f - inc_0))
    with (l * (Spec.e0 r * (inc_f - inc_0)))
    by (unfold Spec.scale3; cbn [Spec.e0]; ring).
  rewrite Rsign_scale by exact Hl. reflexivity.
Qed.

Lemma acceleration_scale_invariant_witness :
  a_d (Fin 1) (Fin 1) (Fin 2) (Fin 0) (Fin 1) (Fin 3)
      (fin_state (Spec.scale3 5 (Spec.mkR3 1 0 0))
                 (Spec.scale3 7 (Spec.mkR3 0 1 0)))
  = a_d (Fin 1) (Fin 1) (Fin 2) (Fin 0) (Fin 1) (Fin 3)
        (fin_state (Spec.mkR3 1 0 0) (Spec.mkR3 0 1 0)).
Proof.
  apply acceleration_scale_invariant; try lra.
  unfold Spec.cross3, Spec.zero3. simpl. intros H. injection H as _ _ H. lra.
Defined.

(** ** Pure plane change *)



